(** * The UWA system-manager configuration (src/uwa/sys/uwa_sys_cfg.cc)
    and the dispatch core it parameterises.

    Part one, [UwaSysCfg], embeds the two globals the translation unit
    defines, [uwa_sys_cfg] and [p_uwa_sys_cfg], over a small store of
    [tUWA_SYS_CFG] objects in which an object is either const or mutable
    and a store into a const object is undefined.

    Part two, [Dispatch], is the event-dispatch core (handler registry,
    event-source adapter, dispatch loop).  Its code is not part of the
    translation unit above; it is written down from the specification. *)

From Stdlib Require Import ZArith List.
From stdpp Require Import gmap list fin_maps.

Local Open Scope Z_scope.

Module UwaSysCfg.

(** Modelled from the spec: the declaration of [tUWA_SYS_CFG] lives in
    uwa_sys.h, which is not among the sources.  Three integer members, in
    the order in which the initializer of [uwa_sys_cfg] lists them.  A
    braced initializer admits no narrowing of a constant, so a member holds
    the constant it is initialized with, whatever its width. *)
Record tUWA_SYS_CFG : Type := Build_tUWA_SYS_CFG {
  mailboxEventMask : Z;   (* GKI mailbox event *)
  mailboxId : Z;          (* GKI mailbox id *)
  timerId : Z             (* GKI timer id *)
}.

(** The members a statement [p->f] can name. *)
Inductive field : Type := F_mailboxEventMask | F_mailboxId | F_timerId.

Definition get_field (f : field) (c : tUWA_SYS_CFG) : Z :=
  match f with
  | F_mailboxEventMask => mailboxEventMask c
  | F_mailboxId => mailboxId c
  | F_timerId => timerId c
  end.

Definition set_field (f : field) (v : Z) (c : tUWA_SYS_CFG) : tUWA_SYS_CFG :=
  match f with
  | F_mailboxEventMask => Build_tUWA_SYS_CFG v (mailboxId c) (timerId c)
  | F_mailboxId => Build_tUWA_SYS_CFG (mailboxEventMask c) v (timerId c)
  | F_timerId => Build_tUWA_SYS_CFG (mailboxEventMask c) (mailboxId c) v
  end.

(** An object of type [tUWA_SYS_CFG] in storage: its value and whether it
    was defined [const]. *)
Record object : Type := Build_object {
  obj_value : tUWA_SYS_CFG;
  obj_const : bool
}.

(** The program state the two globals live in: the [tUWA_SYS_CFG] objects
    by address, and the value of the pointer variable ([None] is the null
    pointer). *)
Record state : Type := Build_state {
  mem : gmap N object;
  p_uwa_sys_cfg : option N
}.

(** What other translation units can do with the two globals.  There is no
    statement that assigns to [uwa_sys_cfg] by name: it is declared const,
    so such a statement is not a program. *)
Inductive op : Type :=
  | AssignPtr (q : option N)              (* p_uwa_sys_cfg = q; *)
  | StoreField (f : field) (v : Z)        (* p_uwa_sys_cfg->f = v; *)
  | LoadField (f : field)                 (* ... = p_uwa_sys_cfg->f; *)
  | DefineCfg (a : N) (c : tUWA_SYS_CFG). (* tUWA_SYS_CFG other = c;  at address a *)

Definition is_AssignPtr (o : op) : bool :=
  match o with AssignPtr _ => true | _ => false end.

(** The object the pointer designates, if any. *)
Definition target (s : state) : option object :=
  a ← p_uwa_sys_cfg s; mem s !! a.

(** [*p_uwa_sys_cfg] read as a whole, and one member of it. *)
Definition deref (s : state) : option tUWA_SYS_CFG :=
  obj_value <$> target s.

Definition load (f : field) (s : state) : option Z :=
  get_field f <$> deref s.

(** One statement.  [None] is undefined behaviour: a null or dangling
    dereference, a store into a const object, two objects at one address. *)
Definition step (o : op) (s : state) : option state :=
  match o with
  | AssignPtr q => Some (Build_state (mem s) q)
  | StoreField f v =>
      match p_uwa_sys_cfg s with
      | None => None
      | Some a =>
          match mem s !! a with
          | None => None
          | Some ob =>
              if obj_const ob then None
              else Some (Build_state
                           (<[a := Build_object (set_field f v (obj_value ob)) false]> (mem s))
                           (p_uwa_sys_cfg s))
          end
      end
  | LoadField f => match load f s with Some _ => Some s | None => None end
  | DefineCfg a c =>
      match mem s !! a with
      | Some _ => None
      | None => Some (Build_state (<[a := Build_object c false]> (mem s)) (p_uwa_sys_cfg s))
      end
  end.

Fixpoint run (ops : list op) (s : state) : option state :=
  match ops with
  | [] => Some s
  | o :: ops' => match step o s with Some s' => run ops' s' | None => None end
  end.

Section Globals.

(** The three constants come from headers (uwb_gki.h, uwa_sys.h) that are
    not among the sources, and the address of [uwa_sys_cfg] is chosen at
    link time: all four are parameters. *)
Variable UWA_MBOX_EVT_MASK : Z.
Variable UWA_MBOX_ID : Z.
Variable UWA_TIMER_ID : Z.
Variable addr_uwa_sys_cfg : N.

(** [const tUWA_SYS_CFG uwa_sys_cfg = { UWA_MBOX_EVT_MASK, UWA_MBOX_ID,
    UWA_TIMER_ID, };]  The initializers are positional. *)
Definition uwa_sys_cfg : tUWA_SYS_CFG :=
  Build_tUWA_SYS_CFG UWA_MBOX_EVT_MASK UWA_MBOX_ID UWA_TIMER_ID.

(** The state once static initialization has run: the const object is in
    storage, and [p_uwa_sys_cfg = (tUWA_SYS_CFG* )&uwa_sys_cfg]. *)
Definition static_init : state :=
  Build_state {[ addr_uwa_sys_cfg := Build_object uwa_sys_cfg true ]}
              (Some addr_uwa_sys_cfg).

(** The const object as the program sees it by name. *)
Definition read_uwa_sys_cfg (s : state) : option object :=
  mem s !! addr_uwa_sys_cfg.

End Globals.

(** A short program over the two globals, for running the model on
    concrete values. *)
Definition example_ops : list op :=
  [ LoadField F_mailboxId;
    DefineCfg 32%N (Build_tUWA_SYS_CFG 1 7 3);
    LoadField F_timerId ].

End UwaSysCfg.

Module Dispatch.

Import UwaSysCfg.

(** Modelled from the spec: the event kinds of the Handler Registry, which
    is not among the sources ("a discriminated event kind:
    mailbox-message-type or timer-expiry"). *)
Inductive EventKind : Type :=
  | MailboxKind (discriminator : N)
  | TimerKind.

#[global] Instance EventKind_eq_dec : EqDecision EventKind.
Proof. solve_decision. Defined.

#[global] Instance EventKind_countable : Countable EventKind :=
  inj_countable'
    (fun k => match k with MailboxKind d => Some d | TimerKind => None end)
    (fun o => match o with Some d => MailboxKind d | None => TimerKind end)
    (fun k => match k with MailboxKind _ => eq_refl | TimerKind => eq_refl end).

(** Modelled from the spec: a mailbox message, which is not among the
    sources; the loop routes it by its discriminator. *)
Record Message : Type := Build_Message {
  msg_type : N;
  msg_payload : list N
}.

(** Modelled from the spec: the tagged event [waitNext] returns,
    "{Mailbox, payload} | {TimerExpired} | {Shutdown}". *)
Inductive Event : Type :=
  | Mailbox (m : Message)
  | TimerExpired
  | Shutdown.

Definition is_Shutdown (e : Event) : bool :=
  match e with Shutdown => true | _ => false end.

(** Modelled from the spec: the states of the Dispatch Loop,
    "Stopped, Starting, Running, Draining, Stopped". *)
Inductive LoopState : Type := Stopped | Starting | Running | Draining.

(** Modelled from the spec: the error taxonomy of section 7. *)
Inductive Error : Type :=
  | BindingError
  | DuplicateHandlerError
  | DoubleCloseError.

(** Modelled from the spec: the duplicate-registration policy of
    [register], "{Replace: overwrite and log, Reject: fail with
    DuplicateHandlerError}". *)
Inductive Policy : Type := Replace | Reject.

(** Modelled from the spec: the kernel's view of who owns which mailbox and
    which timer slot; the kernel itself is out of scope, only the ownership
    that [open] and [close] act on is kept. *)
Record Kernel : Type := Build_Kernel {
  mailbox_owner : gmap Z N;
  timer_owner : gmap Z N
}.

(** Modelled from the spec: the Event Source Adapter, "owning task handle,
    the mailbox id and event mask it polls, the timer id and its current
    expiry (if armed)". *)
Record Adapter : Type := Build_Adapter {
  ad_task : N;
  ad_mailboxId : Z;
  ad_mask : Z;
  ad_timerId : Z;
  ad_expiry : option N;
  ad_open : bool
}.

Definition owned_by_other (task : N) (owner : option N) : bool :=
  match owner with
  | Some t => negb (N.eqb t task)
  | None => false
  end.

(** Modelled from the spec: [open(config)] of the Event Source Adapter,
    which is not among the sources.  It binds the calling task to
    [mailboxId] with the mask [mailboxEventMask], takes the timer slot
    [timerId] disarmed, and fails with [BindingError] when the mailbox or
    the timer is already owned by another task. *)
Definition open (task : N) (cfg : tUWA_SYS_CFG) (k : Kernel) : Error + (Adapter * Kernel) :=
  if owned_by_other task (mailbox_owner k !! mailboxId cfg)
     || owned_by_other task (timer_owner k !! timerId cfg)
  then inl BindingError
  else inr (Build_Adapter task (mailboxId cfg) (mailboxEventMask cfg) (timerId cfg) None true,
            Build_Kernel (<[mailboxId cfg := task]> (mailbox_owner k))
                         (<[timerId cfg := task]> (timer_owner k))).

(** Modelled from the spec: [armTimer(duration)] and [disarmTimer()]. *)
Definition armTimer (d : N) (a : Adapter) : Adapter :=
  Build_Adapter (ad_task a) (ad_mailboxId a) (ad_mask a) (ad_timerId a) (Some d) (ad_open a).

Definition disarmTimer (a : Adapter) : Adapter :=
  Build_Adapter (ad_task a) (ad_mailboxId a) (ad_mask a) (ad_timerId a) None (ad_open a).

(** Modelled from the spec: [close()], which releases the mailbox and timer
    bindings and fails with [DoubleCloseError] the second time. *)
Definition close (a : Adapter) (k : Kernel) : Error + (Adapter * Kernel) :=
  if ad_open a
  then inr (Build_Adapter (ad_task a) (ad_mailboxId a) (ad_mask a) (ad_timerId a) None false,
            Build_Kernel (delete (ad_mailboxId a) (mailbox_owner k))
                         (delete (ad_timerId a) (timer_owner k)))
  else inl DoubleCloseError.

Section Loop.

(** The data the handlers of the protocol modules act on. *)
Context {App : Type}.

(** Modelled from the spec: a handler is a callback run synchronously on
    the event it is given. *)
Definition Handler : Type := Event -> App -> App.

(** Modelled from the spec: the result of [lookup], a handler or the
    [NoHandler] sentinel. *)
Inductive LookupResult : Type :=
  | Found (h : Handler)
  | NoHandler.

(** Modelled from the spec: [register(eventKind, handler)] of the Handler
    Registry, which is not among the sources.  A kind that already has a
    handler is overwritten under [Replace] and refused under [Reject]. *)
Definition register (pol : Policy) (kind : EventKind) (h : Handler)
    (r : gmap EventKind Handler) : Error + gmap EventKind Handler :=
  match r !! kind, pol with
  | Some _, Reject => inl DuplicateHandlerError
  | _, _ => inr (<[kind := h]> r)
  end.

(** Modelled from the spec: [lookup(eventKind)]. *)
Definition lookup (r : gmap EventKind Handler) (kind : EventKind) : LookupResult :=
  match r !! kind with
  | Some h => Found h
  | None => NoHandler
  end.

(** Modelled from the spec: [unregister(eventKind)], a no-op if absent. *)
Definition unregister (kind : EventKind) (r : gmap EventKind Handler) : gmap EventKind Handler :=
  delete kind r.

(** Modelled from the spec: the Dispatch Loop, which is not among the
    sources.  Besides its state, adapter and registry it carries what an
    observer sees of it: the handler invocations in the order they were
    made, the events dropped for want of a handler, and the data the
    handlers act on. *)
Record Loop : Type := Build_Loop {
  loop_state : LoopState;
  loop_adapter : option Adapter;
  loop_registry : gmap EventKind Handler;
  loop_periodic : option N;
  loop_app : App;
  loop_invoked : list (Handler * Event);
  loop_dropped : list Event
}.

Definition set_state (st : LoopState) (l : Loop) : Loop :=
  Build_Loop st (loop_adapter l) (loop_registry l) (loop_periodic l)
             (loop_app l) (loop_invoked l) (loop_dropped l).

Definition set_adapter (a : option Adapter) (l : Loop) : Loop :=
  Build_Loop (loop_state l) a (loop_registry l) (loop_periodic l)
             (loop_app l) (loop_invoked l) (loop_dropped l).

(** Modelled from the spec: [start()].  Stopped to Starting, open the
    adapter with the configuration record; Running on success, back in
    Stopped with the error reported on [BindingError].  The spec gives
    [start()] no behaviour outside Stopped: [None]. *)
Definition start (task : N) (cfg : tUWA_SYS_CFG) (l : Loop) (k : Kernel)
    : option (Loop * Kernel * option Error) :=
  match loop_state l with
  | Stopped =>
      let l1 := set_state Starting l in
      match open task cfg k with
      | inr (a, k') => Some (set_adapter (Some a) (set_state Running l1), k', None)
      | inl err => Some (set_state Stopped l1, k, Some err)
      end
  | _ => None
  end.

(** Modelled from the spec: routing one event to its handler.  The handler
    runs to completion inside the loop; without a handler the event is
    dropped and recorded. *)
Definition dispatch (kind : EventKind) (e : Event) (l : Loop) : Loop :=
  match lookup (loop_registry l) kind with
  | Found h =>
      Build_Loop (loop_state l) (loop_adapter l) (loop_registry l) (loop_periodic l)
                 (h e (loop_app l)) (loop_invoked l ++ [(h, e)]) (loop_dropped l)
  | NoHandler =>
      Build_Loop (loop_state l) (loop_adapter l) (loop_registry l) (loop_periodic l)
                 (loop_app l) (loop_invoked l) (loop_dropped l ++ [e])
  end.

(** Modelled from the spec: after a timer expiry the timer is armed again
    when the loop is configured for periodic operation. *)
Definition rearm (l : Loop) : Loop :=
  match loop_periodic l with
  | Some d => set_adapter (armTimer d <$> loop_adapter l) l
  | None => set_adapter (disarmTimer <$> loop_adapter l) l
  end.

(** Modelled from the spec: Draining.  Handlers are synchronous, so none is
    in flight; the adapter is closed and the loop is Stopped. *)
Definition drain (l : Loop) (k : Kernel) : Loop * Kernel :=
  match loop_adapter l with
  | Some a =>
      match close a k with
      | inr (_, k') => (set_adapter None (set_state Stopped l), k')
      | inl _ => (set_adapter None (set_state Stopped l), k)
      end
  | None => (set_state Stopped l, k)
  end.

(** Modelled from the spec: one turn of the Running state on the event
    [waitNext] returned. *)
Definition on_event (e : Event) (l : Loop) (k : Kernel) : Loop * Kernel :=
  match e with
  | Mailbox m => (dispatch (MailboxKind (msg_type m)) e l, k)
  | TimerExpired => (rearm (dispatch TimerKind e l), k)
  | Shutdown => drain (set_state Draining l) k
  end.

(** Modelled from the spec: the loop over the events the kernel delivers,
    in the order successive [waitNext] calls return them.  It turns only
    while Running; what is returned with the loop and the kernel is the
    part of the queue it did not take. *)
Fixpoint run_loop (q : list Event) (l : Loop) (k : Kernel) : Loop * Kernel * list Event :=
  match q with
  | [] => (l, k, [])
  | e :: q' =>
      match loop_state l with
      | Running => let '(l', k') := on_event e l k in run_loop q' l' k'
      | _ => (l, k, q)
      end
  end.

(** Modelled from the spec: [requestShutdown()] puts a [Shutdown] event on
    the same channel as ordinary messages, behind what is already queued. *)
Definition requestShutdown (q : list Event) : list Event := q ++ [Shutdown].

(** The invocation the loop makes for an event under a registry, if any. *)
Definition invocation (r : gmap EventKind Handler) (e : Event) : option (Handler * Event) :=
  match e with
  | Mailbox m =>
      match lookup r (MailboxKind (msg_type m)) with
      | Found h => Some (h, e)
      | NoHandler => None
      end
  | TimerExpired =>
      match lookup r TimerKind with
      | Found h => Some (h, e)
      | NoHandler => None
      end
  | Shutdown => None
  end.

(** The effect of a sequence of invocations on the handlers' data. *)
Definition apply_invocations (invs : list (Handler * Event)) (a : App) : App :=
  fold_left (fun acc he => fst he (snd he) acc) invs a.

(** The events of a queue the loop drops under a registry. *)
Definition unhandled (r : gmap EventKind Handler) (q : list Event) : list Event :=
  List.filter (fun e => match invocation r e with Some _ => false | None => true end) q.

(** The events of a queue the loop has a handler for. *)
Definition handled (r : gmap EventKind Handler) (q : list Event) : list Event :=
  List.filter (fun e => match invocation r e with Some _ => true | None => false end) q.

End Loop.

(** A queue in which no [Shutdown] is waiting. *)
Definition no_shutdown (q : list Event) : Prop :=
  forallb (fun e => negb (is_Shutdown e)) q = true.

Arguments Handler : clear implicits.
Arguments LookupResult : clear implicits.
Arguments Loop : clear implicits.

(** ** The scenario of the specification, for running the model:
    configuration {mask = 0x01, mailboxId = 7, timerId = 3}, a handler for
    [Ping] that increments a counter. *)

Definition Ping : N := 1%N.
Definition Pong : N := 2%N.

Definition increment : Handler nat := fun _ n => S n.
Definition reset : Handler nat := fun _ _ => O.

Definition scenario_cfg : tUWA_SYS_CFG := Build_tUWA_SYS_CFG 1 7 3.

Definition scenario_task : N := 4%N.

Definition free_kernel : Kernel := Build_Kernel ∅ ∅.

(** A kernel in which another task already owns mailbox 7. *)
Definition busy_kernel : Kernel := Build_Kernel {[ 7 := 9%N ]} ∅.

Definition scenario_registry : gmap EventKind (Handler nat) :=
  {[ MailboxKind Ping := increment ]}.

Definition stopped_loop : Loop nat :=
  Build_Loop Stopped None scenario_registry None O [] [].

Definition running_loop : Loop nat :=
  Build_Loop Running
             (Some (Build_Adapter scenario_task 7 1 3 None true))
             scenario_registry None O [] [].

Definition bound_kernel : Kernel :=
  Build_Kernel {[ 7 := scenario_task ]} {[ 3 := scenario_task ]}.

Definition ping : Event := Mailbox (Build_Message Ping []).
Definition pong : Event := Mailbox (Build_Message Pong [5%N]).

End Dispatch.

(** * Facts about the configuration record and its pointer *)

Module UwaSysCfgFacts.

Import UwaSysCfg.

Section Globals.

Variable UWA_MBOX_EVT_MASK : Z.
Variable UWA_MBOX_ID : Z.
Variable UWA_TIMER_ID : Z.
Variable addr_uwa_sys_cfg : N.

Local Abbreviation the_cfg := (uwa_sys_cfg UWA_MBOX_EVT_MASK UWA_MBOX_ID UWA_TIMER_ID).
Local Abbreviation init :=
  (static_init UWA_MBOX_EVT_MASK UWA_MBOX_ID UWA_TIMER_ID addr_uwa_sys_cfg).
Local Abbreviation by_name := (read_uwa_sys_cfg addr_uwa_sys_cfg).
Local Abbreviation no_assignment ops :=
  (forallb (fun o => negb (is_AssignPtr o)) ops = true).

(** ** Single statements *)

Lemma step_preserves_const (o : op) (s s' : state) (a : N) (c : tUWA_SYS_CFG) :
  mem s !! a = Some (Build_object c true) ->
  step o s = Some s' ->
  mem s' !! a = Some (Build_object c true).
Proof.
  intros Ha Hstep. destruct o as [q | f v | f | b d]; simpl in Hstep.
  - by inversion Hstep; subst.
  - destruct (p_uwa_sys_cfg s) as [t|]; [|done].
    destruct (mem s !! t) as [ob|] eqn:Ht; [|done].
    destruct (obj_const ob) eqn:Hc; [done|].
    inversion Hstep; subst; simpl.
    rewrite lookup_insert_ne; [done|].
    intros ->. rewrite Ha in Ht. inversion Ht; subst. simpl in Hc. done.
  - destruct (load f s); by inversion Hstep; subst.
  - destruct (mem s !! b) eqn:Hb; [done|].
    inversion Hstep; subst; simpl.
    rewrite lookup_insert_ne; [done|]. intros ->. congruence.
Qed.

Lemma run_preserves_const (ops : list op) (s s' : state) (a : N) (c : tUWA_SYS_CFG) :
  mem s !! a = Some (Build_object c true) ->
  run ops s = Some s' ->
  mem s' !! a = Some (Build_object c true).
Proof.
  revert s. induction ops as [|o ops IH]; intros s Ha Hrun; simpl in Hrun.
  - by inversion Hrun; subst.
  - destruct (step o s) as [s1|] eqn:Hs; [|done].
    eapply IH; [|exact Hrun]. eapply step_preserves_const; eauto.
Qed.

Lemma step_keeps_pointer (o : op) (s s' : state) :
  is_AssignPtr o = false ->
  step o s = Some s' ->
  p_uwa_sys_cfg s' = p_uwa_sys_cfg s.
Proof.
  intros Hna Hstep. destruct o as [q | f v | f | b d]; simpl in *.
  - done.
  - destruct (p_uwa_sys_cfg s) as [t|] eqn:Hp; [|done].
    destruct (mem s !! t) as [ob|]; [|done].
    destruct (obj_const ob); [done|]. by inversion Hstep; subst.
  - destruct (load f s); by inversion Hstep; subst.
  - destruct (mem s !! b); [done|]. by inversion Hstep; subst.
Qed.

Lemma run_keeps_pointer (ops : list op) (s s' : state) :
  no_assignment ops ->
  run ops s = Some s' ->
  p_uwa_sys_cfg s' = p_uwa_sys_cfg s.
Proof.
  revert s. induction ops as [|o ops IH]; intros s Hall Hrun; simpl in *.
  - by inversion Hrun; subst.
  - apply andb_prop in Hall as [Ho Hall].
    destruct (step o s) as [s1|] eqn:Hs; [|done].
    rewrite (IH s1 Hall Hrun). eapply step_keeps_pointer; [|exact Hs].
    by destruct (is_AssignPtr o).
Qed.

Lemma static_init_mem :
  mem init !! addr_uwa_sys_cfg = Some (Build_object the_cfg true).
Proof. unfold static_init; simpl. apply lookup_singleton_eq. Qed.

Lemma define_fresh (s : state) (a : N) (c : tUWA_SYS_CFG) :
  mem s !! a = None ->
  step (DefineCfg a c) s
    = Some (Build_state (<[a := Build_object c false]> (mem s)) (p_uwa_sys_cfg s)).
Proof. intros Hfresh. simpl. by rewrite Hfresh. Qed.

Lemma store_mutable (s : state) (a : N) (ob : object) (f : field) (v : Z) :
  p_uwa_sys_cfg s = Some a ->
  mem s !! a = Some ob ->
  obj_const ob = false ->
  step (StoreField f v) s
    = Some (Build_state
              (<[a := Build_object (set_field f v (obj_value ob)) false]> (mem s))
              (Some a)).
Proof. intros Hp Hm Hc. simpl. by rewrite Hp, Hm, Hc. Qed.

(** A state in which the pointer designates the const record: what a read
    and what a store through it do. *)
Lemma pointer_at_const (s : state) (a : N) (c : tUWA_SYS_CFG) :
  p_uwa_sys_cfg s = Some a ->
  mem s !! a = Some (Build_object c true) ->
  target s = Some (Build_object c true) /\
  deref s = Some c /\
  (forall f, load f s = Some (get_field f c)) /\
  (forall f, step (LoadField f) s = Some s) /\
  (forall f v, step (StoreField f v) s = None).
Proof.
  intros Hp Hm.
  assert (Ht : target s = Some (Build_object c true)).
  { unfold target. rewrite Hp. simpl. exact Hm. }
  assert (Hd : deref s = Some c).
  { unfold deref. by rewrite Ht. }
  assert (Hl : forall f, load f s = Some (get_field f c)).
  { intros f. unfold load. by rewrite Hd. }
  repeat split; try done.
  - intros f. simpl. by rewrite Hl.
  - intros f v. simpl. rewrite Hp, Hm. done.
Qed.

(** ** The claims *)

(** C1. The configuration record [uwa_sys_cfg] is a triple of exactly
    three fields, in the order mailboxEventMask, mailboxId, timerId, and
    their values are the build-time constants UWA_MBOX_EVT_MASK,
    UWA_MBOX_ID and UWA_TIMER_ID respectively. *)
Theorem uwa_sys_cfg_triple :
  mailboxEventMask the_cfg = UWA_MBOX_EVT_MASK /\
  mailboxId the_cfg = UWA_MBOX_ID /\
  timerId the_cfg = UWA_TIMER_ID /\
  map (fun f => get_field f the_cfg) [F_mailboxEventMask; F_mailboxId; F_timerId]
    = [UWA_MBOX_EVT_MASK; UWA_MBOX_ID; UWA_TIMER_ID] /\
  (forall f : field, f ∈ [F_mailboxEventMask; F_mailboxId; F_timerId]) /\
  (forall c : tUWA_SYS_CFG,
     c = Build_tUWA_SYS_CFG (mailboxEventMask c) (mailboxId c) (timerId c)).
Proof.
  repeat split; try reflexivity.
  - intros f. destruct f; set_solver.
  - intros c. by destruct c.
Qed.

(** C2. The record [uwa_sys_cfg] is immutable for the lifetime of the
    process: static initialization constructs it, and after every
    (defined) sequence of operations of the program the record, still
    const, holds its build-time value. *)
Theorem uwa_sys_cfg_immutable (ops : list op) (s : state) :
  by_name init = Some (Build_object the_cfg true) /\
  (run ops init = Some s ->
   by_name s = Some (Build_object the_cfg true)).
Proof.
  split.
  - apply static_init_mem.
  - intros Hrun. unfold read_uwa_sys_cfg.
    eapply run_preserves_const; [apply static_init_mem | exact Hrun].
Qed.

(** C3. After static initialization exactly one configuration record is in
    storage, and the mutable global [p_uwa_sys_cfg] holds its address;
    assigning to [p_uwa_sys_cfg], in any state, is defined, changes the
    pointer only and leaves the storage, the constant record included,
    as it was. *)
Theorem p_uwa_sys_cfg_holds_address (q : option N) (s : state) :
  dom (mem init) = {[ addr_uwa_sys_cfg ]} /\
  by_name init = Some (Build_object the_cfg true) /\
  p_uwa_sys_cfg init = Some addr_uwa_sys_cfg /\
  (exists s', step (AssignPtr q) s = Some s' /\
              p_uwa_sys_cfg s' = q /\
              mem s' = mem s /\
              by_name s' = by_name s) /\
  (exists s', step (AssignPtr q) init = Some s' /\
              by_name s' = Some (Build_object the_cfg true)).
Proof.
  repeat split.
  - unfold static_init; simpl. apply dom_singleton_L.
  - apply static_init_mem.
  - eexists; repeat split; reflexivity.
  - eexists; split; [reflexivity|]. apply static_init_mem.
Qed.

(** C9. After static initialization, and for as long as nothing assigns to
    the pointer, [p_uwa_sys_cfg] is non-null, reading through it is defined,
    and the read yields (UWA_MBOX_EVT_MASK, UWA_MBOX_ID, UWA_TIMER_ID). *)
Theorem p_uwa_sys_cfg_reads_triple (ops : list op) (s : state) :
  no_assignment ops ->
  run ops init = Some s ->
  p_uwa_sys_cfg s = Some addr_uwa_sys_cfg /\
  deref s = Some (Build_tUWA_SYS_CFG UWA_MBOX_EVT_MASK UWA_MBOX_ID UWA_TIMER_ID) /\
  load F_mailboxEventMask s = Some UWA_MBOX_EVT_MASK /\
  load F_mailboxId s = Some UWA_MBOX_ID /\
  load F_timerId s = Some UWA_TIMER_ID /\
  (forall f, step (LoadField f) s = Some s).
Proof.
  intros Hna Hrun.
  assert (Hp : p_uwa_sys_cfg s = Some addr_uwa_sys_cfg).
  { by rewrite (run_keeps_pointer ops init s Hna Hrun). }
  assert (Hm : mem s !! addr_uwa_sys_cfg = Some (Build_object the_cfg true)).
  { eapply run_preserves_const; [apply static_init_mem | exact Hrun]. }
  destruct (pointer_at_const s _ _ Hp Hm) as (_ & Hd & Hl & Hld & _).
  repeat split; try done; apply Hl.
Qed.

(** C10. The initializer casts away const: the pointer through which
    stores are written designates the const object [uwa_sys_cfg], so a
    store through it, in the initial state and until the pointer is
    assigned, is undefined.  Redirecting works by assigning the pointer:
    after pointing it at another, mutable record, reads see that record,
    stores through the pointer are defined, and [uwa_sys_cfg] is as it
    was. *)
Theorem store_through_initial_pointer (f : field) (v : Z) (a : N)
    (c : tUWA_SYS_CFG) (ops : list op) (s : state) :
  a <> addr_uwa_sys_cfg ->
  target init = Some (Build_object the_cfg true) /\
  step (StoreField f v) init = None /\
  (no_assignment ops -> run ops init = Some s -> step (StoreField f v) s = None) /\
  (exists s1 s2,
     run [DefineCfg a c; AssignPtr (Some a)] init = Some s1 /\
     deref s1 = Some c /\
     by_name s1 = Some (Build_object the_cfg true) /\
     step (StoreField f v) s1 = Some s2 /\
     deref s2 = Some (set_field f v c) /\
     by_name s2 = Some (Build_object the_cfg true)).
Proof.
  intros Hne.
  destruct (pointer_at_const init addr_uwa_sys_cfg the_cfg eq_refl static_init_mem)
    as (Ht & _ & _ & _ & Hst).
  split; [exact Ht|]. split; [apply Hst|]. split.
  - intros Hna Hrun.
    assert (Hp : p_uwa_sys_cfg s = Some addr_uwa_sys_cfg).
    { by rewrite (run_keeps_pointer ops init s Hna Hrun). }
    assert (Hm : mem s !! addr_uwa_sys_cfg = Some (Build_object the_cfg true)).
    { eapply run_preserves_const; [apply static_init_mem | exact Hrun]. }
    by destruct (pointer_at_const s _ _ Hp Hm) as (_ & _ & _ & _ & ->).
  - assert (Hfresh : mem init !! a = None).
    { unfold static_init; simpl. by apply lookup_singleton_ne. }
    pose (s1 := Build_state (<[a := Build_object c false]> (mem init)) (Some a)).
    pose (s2 := Build_state
                  (<[a := Build_object (set_field f v c) false]> (mem s1)) (Some a)).
    assert (Hm1 : mem s1 !! a = Some (Build_object c false)).
    { apply lookup_insert_eq. }
    assert (Hn1 : by_name s1 = Some (Build_object the_cfg true)).
    { unfold read_uwa_sys_cfg, s1; simpl.
      rewrite lookup_insert_ne by done. apply static_init_mem. }
    exists s1, s2. repeat split.
    + unfold run. rewrite (define_fresh _ _ _ Hfresh). reflexivity.
    + unfold deref, target. simpl. by rewrite lookup_insert_eq.
    + exact Hn1.
    + exact (store_mutable s1 a _ f v eq_refl Hm1 eq_refl).
    + unfold deref, target. simpl. by rewrite lookup_insert_eq.
    + unfold read_uwa_sys_cfg, s2. simpl.
      rewrite lookup_insert_ne by done. exact Hn1.
Qed.

(** ** Further facts about the two globals *)



(** Whatever a program has done with the pointer and with the records it
    was redirected to, assigning [&uwa_sys_cfg] back to [p_uwa_sys_cfg]
    restores the initial view: storage is untouched by the assignment,
    reads through the pointer yield the three build-time constants, and a
    store through it is undefined again. *)
Theorem pointer_restored (ops : list op) (s : state) :
  run ops init = Some s ->
  exists s',
    step (AssignPtr (Some addr_uwa_sys_cfg)) s = Some s' /\
    mem s' = mem s /\
    deref s' = Some (Build_tUWA_SYS_CFG UWA_MBOX_EVT_MASK UWA_MBOX_ID UWA_TIMER_ID) /\
    load F_mailboxEventMask s' = Some UWA_MBOX_EVT_MASK /\
    load F_mailboxId s' = Some UWA_MBOX_ID /\
    load F_timerId s' = Some UWA_TIMER_ID /\
    (forall f v, step (StoreField f v) s' = None).
Proof.
  intros Hrun.
  assert (Hm : mem s !! addr_uwa_sys_cfg = Some (Build_object the_cfg true)).
  { eapply run_preserves_const; [apply static_init_mem | exact Hrun]. }
  exists (Build_state (mem s) (Some addr_uwa_sys_cfg)).
  destruct (pointer_at_const (Build_state (mem s) (Some addr_uwa_sys_cfg))
              addr_uwa_sys_cfg the_cfg eq_refl Hm) as (_ & Hd & Hl & _ & Hst).
  split_and!; try done; apply Hl.
Qed.


End Globals.

(** ** A run on concrete values *)

Lemma uwa_sys_cfg_immutable_witness :
  run (example_ops ++ [AssignPtr (Some 32%N); StoreField F_mailboxId 9])
      (static_init 4 2 1 16%N)
    = Some (Build_state
              (<[32%N := Build_object (Build_tUWA_SYS_CFG 1 9 3) false]>
                 {[ 16%N := Build_object (uwa_sys_cfg 4 2 1) true ]})
              (Some 32%N)) /\
  read_uwa_sys_cfg 16%N
    (Build_state
       (<[32%N := Build_object (Build_tUWA_SYS_CFG 1 9 3) false]>
          {[ 16%N := Build_object (uwa_sys_cfg 4 2 1) true ]})
       (Some 32%N))
    = Some (Build_object (uwa_sys_cfg 4 2 1) true).
Proof.
  assert (Hrun :
    run (example_ops ++ [AssignPtr (Some 32%N); StoreField F_mailboxId 9])
        (static_init 4 2 1 16%N)
      = Some (Build_state
                (<[32%N := Build_object (Build_tUWA_SYS_CFG 1 9 3) false]>
                   {[ 16%N := Build_object (uwa_sys_cfg 4 2 1) true ]})
                (Some 32%N))).
  { vm_compute. reflexivity. }
  split; [exact Hrun|].
  exact (proj2 (uwa_sys_cfg_immutable 4 2 1 16%N _ _) Hrun).
Defined.

Lemma p_uwa_sys_cfg_reads_triple_witness :
  load F_mailboxEventMask
    (Build_state
       (<[32%N := Build_object (Build_tUWA_SYS_CFG 1 7 3) false]>
          {[ 16%N := Build_object (uwa_sys_cfg 4 2 1) true ]})
       (Some 16%N)) = Some 4.
Proof.
  refine (proj1 (proj2 (proj2
    (p_uwa_sys_cfg_reads_triple 4 2 1 16%N example_ops _ _ _)))).
  - vm_compute. reflexivity.
  - vm_compute. reflexivity.
Defined.

Lemma store_through_initial_pointer_witness :
  step (StoreField F_timerId 5) (static_init 4 2 1 16%N) = None.
Proof.
  refine (proj1 (proj2
    (store_through_initial_pointer 4 2 1 16%N F_timerId 5 32%N
       (Build_tUWA_SYS_CFG 1 7 3) [] (static_init 4 2 1 16%N) _))).
  lia.
Defined.

Lemma pointer_restored_witness :
  exists s',
    step (AssignPtr (Some 16%N))
         (Build_state
            (<[32%N := Build_object (Build_tUWA_SYS_CFG 1 9 3) false]>
               {[ 16%N := Build_object (uwa_sys_cfg 4 2 1) true ]})
            (Some 32%N)) = Some s' /\
    load F_mailboxId s' = Some 2 /\
    step (StoreField F_mailboxId 9) s' = None.
Proof.
  destruct (pointer_restored 4 2 1 16%N
              (example_ops ++ [AssignPtr (Some 32%N); StoreField F_mailboxId 9])
              (Build_state
                 (<[32%N := Build_object (Build_tUWA_SYS_CFG 1 9 3) false]>
                    {[ 16%N := Build_object (uwa_sys_cfg 4 2 1) true ]})
                 (Some 32%N)))
    as (s' & Hstep & _ & _ & _ & Hl & _ & Hst).
  - vm_compute. reflexivity.
  - exists s'. split_and!; [exact Hstep | exact Hl | apply Hst].
Defined.


End UwaSysCfgFacts.

(** * Facts about the dispatch core *)

Module DispatchFacts.

Import UwaSysCfg Dispatch.

Section Loop.

Context {App : Type}.

Implicit Types (l : Loop App) (k : Kernel) (e : Event) (q : list Event).
Implicit Types (r : gmap EventKind (Handler App)) (h : Handler App).

(** ** The registry *)

Lemma register_Replace_total (kind : EventKind) h r :
  register Replace kind h r = inr (<[kind := h]> r).
Proof. unfold register. by destruct (r !! kind). Qed.

Lemma register_Reject_fresh (kind : EventKind) h r :
  r !! kind = None -> register Reject kind h r = inr (<[kind := h]> r).
Proof. intros Hnone. unfold register. by rewrite Hnone. Qed.

Lemma register_inr (pol : Policy) (kind : EventKind) h r r' :
  register pol kind h r = inr r' -> r' = <[kind := h]> r.
Proof.
  unfold register. destruct (r !! kind), pol; intros Heq; by inversion Heq.
Qed.

(** ** One turn of the loop *)

Lemma dispatch_spec (kind : EventKind) e l :
  let l1 := dispatch kind e l in
  loop_state l1 = loop_state l /\
  loop_adapter l1 = loop_adapter l /\
  loop_registry l1 = loop_registry l /\
  loop_periodic l1 = loop_periodic l /\
  match lookup (loop_registry l) kind with
  | Found h =>
      loop_invoked l1 = loop_invoked l ++ [(h, e)] /\
      loop_dropped l1 = loop_dropped l /\
      loop_app l1 = h e (loop_app l)
  | NoHandler =>
      loop_invoked l1 = loop_invoked l /\
      loop_dropped l1 = loop_dropped l ++ [e] /\
      loop_app l1 = loop_app l
  end.
Proof. unfold dispatch. destruct (lookup (loop_registry l) kind); by repeat split. Qed.

Lemma rearm_spec l :
  loop_state (rearm l) = loop_state l /\
  loop_registry (rearm l) = loop_registry l /\
  loop_periodic (rearm l) = loop_periodic l /\
  loop_invoked (rearm l) = loop_invoked l /\
  loop_dropped (rearm l) = loop_dropped l /\
  loop_app (rearm l) = loop_app l.
Proof. unfold rearm. destruct (loop_periodic l) eqn:Hp; by repeat split. Qed.

(** An ordinary event leaves the loop in its state, with its registry, and
    the kernel untouched; it adds the invocation it causes, or else is
    added to the dropped events. *)
Lemma on_event_ordinary e l k :
  is_Shutdown e = false ->
  exists l1,
    on_event e l k = (l1, k) /\
    loop_state l1 = loop_state l /\
    loop_registry l1 = loop_registry l /\
    loop_invoked l1 = loop_invoked l ++ omap (invocation (loop_registry l)) [e] /\
    loop_dropped l1 = loop_dropped l ++ unhandled (loop_registry l) [e] /\
    loop_app l1 = apply_invocations (omap (invocation (loop_registry l)) [e]) (loop_app l).
Proof.
  intros Hns. destruct e as [m | | ]; [| |discriminate]; unfold on_event, invocation.
  - eexists; split; [reflexivity|].
    pose proof (dispatch_spec (MailboxKind (msg_type m)) (Mailbox m) l) as Hd.
    cbv zeta in Hd. destruct Hd as (Hs & _ & Hr & _ & Hd).
    unfold unhandled; cbn [omap list_omap invocation List.filter].
    destruct (lookup (loop_registry l) (MailboxKind (msg_type m)));
      destruct Hd as (Hi & Hdr & Ha); simpl;
      rewrite ?app_nil_r; by repeat split.
  - eexists; split; [reflexivity|].
    pose proof (dispatch_spec TimerKind TimerExpired l) as Hd.
    pose proof (rearm_spec (dispatch TimerKind TimerExpired l)) as Hre.
    cbv zeta in Hd. destruct Hd as (Hs & _ & Hr & _ & Hd).
    destruct Hre as (Hs' & Hr' & _ & Hi' & Hd' & Ha').
    rewrite Hs', Hr', Hi', Hd', Ha'.
    unfold unhandled; cbn [omap list_omap invocation List.filter].
    destruct (lookup (loop_registry l) TimerKind);
      destruct Hd as (Hi & Hdr & Ha); simpl;
      rewrite ?app_nil_r; by repeat split.
Qed.

Lemma apply_invocations_app (i1 i2 : list (Handler App * Event)) (a : App) :
  apply_invocations (i1 ++ i2) a = apply_invocations i2 (apply_invocations i1 a).
Proof. unfold apply_invocations. apply fold_left_app. Qed.

Lemma unhandled_app r q1 q2 :
  unhandled r (q1 ++ q2) = unhandled r q1 ++ unhandled r q2.
Proof. unfold unhandled. apply List.filter_app. Qed.

(** ** The loop on a queue without [Shutdown] *)

Lemma run_loop_ordinary q l k :
  loop_state l = Running ->
  no_shutdown q ->
  exists l',
    run_loop q l k = (l', k, []) /\
    loop_state l' = Running /\
    loop_registry l' = loop_registry l /\
    loop_invoked l' = loop_invoked l ++ omap (invocation (loop_registry l)) q /\
    loop_dropped l' = loop_dropped l ++ unhandled (loop_registry l) q /\
    loop_app l' = apply_invocations (omap (invocation (loop_registry l)) q) (loop_app l).
Proof.
  revert l. induction q as [|e q IH]; intros l Hrun Hns.
  - exists l. simpl. rewrite !app_nil_r. by repeat split.
  - unfold no_shutdown in Hns. simpl in Hns. apply andb_prop in Hns as [He Hq].
    apply negb_true_iff in He.
    destruct (on_event_ordinary e l k He) as (l1 & Hon & Hs1 & Hr1 & Hi1 & Hd1 & Ha1).
    destruct (IH l1) as (l' & Hrl & Hs' & Hr' & Hi' & Hd' & Ha'); [congruence | exact Hq |].
    exists l'. simpl run_loop. rewrite Hrun, Hon, Hrl.
    change (e :: q) with ([e] ++ q).
    rewrite omap_app, unhandled_app, apply_invocations_app, !app_assoc.
    rewrite Hr1 in Hi', Hd', Ha'.
    rewrite <- Hi1, <- Hd1, <- Ha1.
    repeat split; congruence.
Qed.

Lemma run_loop_app q1 q2 l k :
  loop_state l = Running ->
  no_shutdown q1 ->
  exists l1,
    run_loop q1 l k = (l1, k, []) /\
    run_loop (q1 ++ q2) l k = run_loop q2 l1 k.
Proof.
  revert l. induction q1 as [|e q1 IH]; intros l Hrun Hns.
  - exists l. by destruct q2.
  - unfold no_shutdown in Hns. simpl in Hns. apply andb_prop in Hns as [He Hq].
    apply negb_true_iff in He.
    destruct (on_event_ordinary e l k He) as (l1 & Hon & Hs1 & _).
    destruct (IH l1) as (l2 & H1 & H2); [congruence | exact Hq |].
    exists l2. simpl. rewrite Hrun, Hon. by split.
Qed.

Lemma drain_spec l k :
  let '(l', k') := drain (set_state Draining l) k in
  loop_state l' = Stopped /\
  loop_adapter l' = None /\
  loop_registry l' = loop_registry l /\
  loop_invoked l' = loop_invoked l /\
  loop_dropped l' = loop_dropped l /\
  loop_app l' = loop_app l.
Proof.
  unfold drain. simpl.
  destruct (loop_adapter l) as [a|] eqn:Ha.
  - destruct (close a k) as [err | [a' k']]; simpl; by repeat split.
  - simpl. by repeat split.
Qed.

Lemma mailbox_no_shutdown (ms : list Message) : no_shutdown (map Mailbox ms).
Proof. unfold no_shutdown. induction ms as [|m ms IH]; simpl; done. Qed.

Lemma omap_all_handled r q :
  Forall (fun e => is_Some (invocation r e)) q ->
  map snd (omap (invocation r) q) = q.
Proof.
  induction 1 as [|e q [he He] _ IH]; [done|].
  simpl. rewrite He. simpl. f_equal; [|exact IH].
  destruct e as [m| |]; simpl in He.
  - destruct (lookup r (MailboxKind (msg_type m))); by inversion He.
  - destruct (lookup r TimerKind); by inversion He.
  - done.
Qed.

Lemma invoked_events r q :
  map snd (omap (invocation r) q) = handled r q.
Proof.
  induction q as [|e q IH]; [done|].
  unfold handled in *. cbn [omap list_omap List.filter].
  fold (omap (invocation r) q).
  destruct (invocation r e) as [[h e']|] eqn:He; [|exact IH].
  cbn [map snd]. rewrite IH. f_equal.
  destruct e as [m| |]; cbn [invocation] in He.
  - destruct (lookup r (MailboxKind (msg_type m))); by inversion He.
  - destruct (lookup r TimerKind); by inversion He.
  - done.
Qed.

Lemma handled_or_unhandled r q :
  (length (handled r q) + length (unhandled r q))%nat = length q.
Proof.
  unfold handled, unhandled.
  induction q as [|e q IH]; [done|].
  cbn [List.filter]. destruct (invocation r e); simpl; lia.
Qed.

Lemma open_cases (task : N) (cfg : tUWA_SYS_CFG) k :
  open task cfg k = inl BindingError \/
  exists a k', open task cfg k = inr (a, k').
Proof.
  unfold open.
  destruct (owned_by_other task (mailbox_owner k !! mailboxId cfg)
            || owned_by_other task (timer_owner k !! timerId cfg)); eauto.
Qed.

(** ** The claims *)

(** C4. For any sequence of mailbox events delivered to the Dispatch Loop
    in order E1, ..., En, the loop takes all of them and invokes the
    corresponding handlers in exactly that order: one invocation for each
    event that has a handler, on that event, with the handler registered
    for its kind, nothing reordered and nothing batched. *)
Theorem dispatch_loop_fifo (ms : list Message) l k :
  loop_state l = Running ->
  exists l',
    run_loop (map Mailbox ms) l k = (l', k, []) /\
    loop_state l' = Running /\
    loop_invoked l'
      = loop_invoked l ++ omap (invocation (loop_registry l)) (map Mailbox ms) /\
    map snd (omap (invocation (loop_registry l)) (map Mailbox ms))
      = handled (loop_registry l) (map Mailbox ms) /\
    (Forall (fun e => is_Some (invocation (loop_registry l) e)) (map Mailbox ms) ->
     map snd (omap (invocation (loop_registry l)) (map Mailbox ms)) = map Mailbox ms) /\
    loop_app l'
      = apply_invocations (omap (invocation (loop_registry l)) (map Mailbox ms))
                          (loop_app l).
Proof.
  intros Hrun.
  destruct (run_loop_ordinary (map Mailbox ms) l k Hrun (mailbox_no_shutdown ms))
    as (l' & Hrl & Hs & _ & Hi & _ & Ha).
  exists l'. repeat split; try done.
  - apply invoked_events.
  - apply omap_all_handled.
Qed.

(** C5. Registering a handler h for a kind K and then looking K up returns
    h; unregistering K and then looking it up returns the NoHandler
    sentinel.  Registration always goes through under the Replace policy,
    and under the Reject policy whenever K has no handler yet. *)
Theorem register_then_lookup (pol : Policy) (K : EventKind) h r :
  (forall r', register pol K h r = inr r' -> lookup r' K = Found h) /\
  (exists r', register Replace K h r = inr r' /\ lookup r' K = Found h) /\
  (r !! K = None -> exists r', register Reject K h r = inr r' /\ lookup r' K = Found h) /\
  lookup (unregister K r) K = NoHandler /\
  (forall r', register pol K h r = inr r' -> lookup (unregister K r') K = NoHandler).
Proof.
  assert (Hins : lookup (<[K := h]> r) K = Found h).
  { unfold lookup. by rewrite lookup_insert_eq. }
  assert (Hdel : forall r0 : gmap EventKind (Handler App),
             lookup (unregister K r0) K = NoHandler).
  { intros r0. unfold lookup, unregister. by rewrite lookup_delete_eq. }
  repeat split.
  - intros r' Hreg. by rewrite (register_inr _ _ _ _ _ Hreg).
  - exists (<[K := h]> r). split; [apply register_Replace_total | exact Hins].
  - intros Hnone. exists (<[K := h]> r).
    split; [by apply register_Reject_fresh | exact Hins].
  - apply Hdel.
  - intros r' _. apply Hdel.
Qed.

(** C6. Delivering an event of a kind that has no registered handler to
    the running loop raises nothing and does not halt it: the event is
    dropped (and recorded as dropped), the loop is still Running with its
    registry, its invocations and the handlers' data untouched, and it goes
    on to process the events that follow. *)
Theorem unhandled_event_is_dropped e q l k :
  loop_state l = Running ->
  is_Shutdown e = false ->
  invocation (loop_registry l) e = None ->
  exists l1,
    on_event e l k = (l1, k) /\
    loop_state l1 = Running /\
    loop_registry l1 = loop_registry l /\
    loop_invoked l1 = loop_invoked l /\
    loop_app l1 = loop_app l /\
    loop_dropped l1 = loop_dropped l ++ [e] /\
    run_loop (e :: q) l k = run_loop q l1 k /\
    (no_shutdown q ->
     exists l',
       run_loop (e :: q) l k = (l', k, []) /\
       loop_state l' = Running /\
       loop_invoked l' = loop_invoked l ++ omap (invocation (loop_registry l)) q).
Proof.
  intros Hrun Hns Hnone.
  destruct (on_event_ordinary e l k Hns) as (l1 & Hon & Hs1 & Hr1 & Hi1 & Hd1 & Ha1).
  unfold unhandled in Hd1. cbn [omap list_omap List.filter] in Hi1, Hd1, Ha1.
  rewrite Hnone in Hi1, Hd1, Ha1. rewrite app_nil_r in Hi1.
  cbv iota in Hd1. unfold apply_invocations in Ha1. cbn [fold_left] in Ha1.
  assert (Hstep : run_loop (e :: q) l k = run_loop q l1 k).
  { simpl. by rewrite Hrun, Hon. }
  exists l1. split_and!; try congruence.
  intros Hq.
  destruct (run_loop_ordinary q l1 k) as (l' & Hrl & Hs' & _ & Hi' & _);
    [congruence | exact Hq |].
  exists l'. rewrite Hstep, Hrl. split_and!; congruence.
Qed.

(** C7. [start()] called in state Stopped: when opening the Event Source
    Adapter succeeds the loop is Running and owns the adapter; when it
    fails, the failure is BindingError, the loop (still Stopped) and the
    kernel are exactly as they were, and the error is returned to the
    caller.  One of the two always happens. *)
Theorem start_from_Stopped (task : N) (cfg : tUWA_SYS_CFG) l k :
  loop_state l = Stopped ->
  (forall a k',
     open task cfg k = inr (a, k') ->
     start task cfg l k = Some (set_adapter (Some a) (set_state Running l), k', None) /\
     loop_state (set_adapter (Some a) (set_state Running l)) = Running) /\
  (forall err,
     open task cfg k = inl err ->
     err = BindingError /\
     start task cfg l k = Some (l, k, Some BindingError) /\
     loop_state l = Stopped) /\
  (exists l' k' res,
     start task cfg l k = Some (l', k', res) /\
     (res = None /\ loop_state l' = Running \/
      res = Some BindingError /\ l' = l /\ k' = k)).
Proof.
  intros Hst.
  assert (Hback : set_state Stopped (set_state Starting l) = l).
  { destruct l; simpl in *; by subst. }
  assert (Hok : forall a k',
     open task cfg k = inr (a, k') ->
     start task cfg l k = Some (set_adapter (Some a) (set_state Running l), k', None)).
  { intros a k' Hopen. unfold start. by rewrite Hst, Hopen. }
  assert (Hfail : forall err,
     open task cfg k = inl err ->
     err = BindingError /\ start task cfg l k = Some (l, k, Some BindingError)).
  { intros err Hopen.
    destruct (open_cases task cfg k) as [Hb | (a & k' & Hs)]; [|congruence].
    split; [congruence|]. unfold start. by rewrite Hst, Hb, Hback. }
  split_and!.
  - intros a k' Hopen. split; [by apply Hok | done].
  - intros err Hopen. destruct (Hfail err Hopen) as [He Hs]. by split_and!.
  - destruct (open_cases task cfg k) as [Hb | (a & k' & Hs)].
    + exists l, k, (Some BindingError).
      split; [exact (proj2 (Hfail _ Hb)) | by right].
    + exists (set_adapter (Some a) (set_state Running l)), k', None.
      split; [by apply Hok | by left].
Qed.

(** C8. If [requestShutdown()] is issued while events are queued, the loop
    processes every queued event, in order, before it reaches Stopped: each
    is either handed to its handler or, having none, dropped as such.
    Nothing of the queue is lost; what the loop leaves untaken is only what
    arrives after the shutdown request. *)
Theorem shutdown_drains_queue q (later : list Event) l k :
  loop_state l = Running ->
  no_shutdown q ->
  exists l' k',
    run_loop (requestShutdown q ++ later) l k = (l', k', later) /\
    run_loop (requestShutdown q) l k = (l', k', []) /\
    loop_state l' = Stopped /\
    loop_adapter l' = None /\
    loop_invoked l' = loop_invoked l ++ omap (invocation (loop_registry l)) q /\
    map snd (omap (invocation (loop_registry l)) q) = handled (loop_registry l) q /\
    loop_dropped l' = loop_dropped l ++ unhandled (loop_registry l) q /\
    (length (handled (loop_registry l) q) + length (unhandled (loop_registry l) q))%nat
      = length q /\
    loop_app l'
      = apply_invocations (omap (invocation (loop_registry l)) q) (loop_app l).
Proof.
  intros Hrun Hq.
  destruct (run_loop_ordinary q l k Hrun Hq) as (l1 & Hrl & Hs1 & Hr1 & Hi1 & Hd1 & Ha1).
  destruct (run_loop_app q ([Shutdown] ++ later) l k Hrun Hq) as (l1' & Hrl' & Happ).
  destruct (run_loop_app q [Shutdown] l k Hrun Hq) as (l1'' & Hrl'' & Happ0).
  assert (l1' = l1) by congruence. assert (l1'' = l1) by congruence. subst l1' l1''.
  pose proof (drain_spec l1 k) as Hdr.
  destruct (drain (set_state Draining l1) k) as [l' k'] eqn:Hdrain.
  destruct Hdr as (Hs' & Had' & Hr' & Hi' & Hd' & Ha').
  exists l', k'. unfold requestShutdown. rewrite <- app_assoc, Happ, Happ0.
  cbn [app run_loop]. rewrite Hs1. cbn [on_event]. rewrite Hdrain.
  split_and!; try congruence.
  - destruct later as [|e later]; [done|]. cbn [run_loop]. by rewrite Hs'.
  - apply invoked_events.
  - apply handled_or_unhandled.
Qed.

End Loop.

(** ** The scenario of the specification *)

Lemma dispatch_loop_fifo_witness :
  exists l',
    run_loop (map Mailbox [Build_Message Ping []; Build_Message Pong [5%N];
                           Build_Message Ping []])
             running_loop bound_kernel = (l', bound_kernel, []) /\
    loop_state l' = Running /\
    loop_invoked l' = [(increment, ping); (increment, ping)] /\
    loop_app l' = 2%nat.
Proof.
  destruct (dispatch_loop_fifo
              [Build_Message Ping []; Build_Message Pong [5%N]; Build_Message Ping []]
              running_loop bound_kernel eq_refl)
    as (l' & Hrl & Hs & Hi & _ & _ & Ha).
  exists l'. repeat split; [exact Hrl | exact Hs | exact Hi | exact Ha].
Defined.

Lemma register_then_lookup_witness :
  lookup (<[MailboxKind Pong := reset]> scenario_registry) (MailboxKind Pong) = Found reset.
Proof.
  refine (proj1 (register_then_lookup Reject (MailboxKind Pong) reset scenario_registry) _ _).
  vm_compute. reflexivity.
Defined.

Lemma unhandled_event_is_dropped_witness :
  exists l1,
    on_event pong running_loop bound_kernel = (l1, bound_kernel) /\
    loop_state l1 = Running /\
    loop_dropped l1 = [pong] /\
    run_loop [pong; ping] running_loop bound_kernel = run_loop [ping] l1 bound_kernel.
Proof.
  destruct (unhandled_event_is_dropped pong [ping] running_loop bound_kernel
              eq_refl eq_refl eq_refl)
    as (l1 & Hon & Hs & _ & _ & _ & Hd & Hstep & _).
  exists l1. repeat split; [exact Hon | exact Hs | exact Hd | exact Hstep].
Defined.

Lemma start_from_Stopped_witness :
  (exists l' k',
     start scenario_task scenario_cfg stopped_loop free_kernel = Some (l', k', None) /\
     loop_state l' = Running) /\
  start scenario_task scenario_cfg stopped_loop busy_kernel
    = Some (stopped_loop, busy_kernel, Some BindingError).
Proof.
  split.
  - destruct (start_from_Stopped scenario_task scenario_cfg stopped_loop free_kernel eq_refl)
      as (Hok & _ & _).
    destruct (Hok _ _ eq_refl) as (Hstart & Hrun).
    eexists _, _. split; [exact Hstart | exact Hrun].
  - destruct (start_from_Stopped scenario_task scenario_cfg stopped_loop busy_kernel eq_refl)
      as (_ & Hfail & _).
    destruct (Hfail BindingError eq_refl) as (_ & Hstart & _).
    exact Hstart.
Defined.

Lemma shutdown_drains_queue_witness :
  exists l' k',
    run_loop (requestShutdown [ping; pong; ping]) running_loop bound_kernel = (l', k', []) /\
    loop_state l' = Stopped /\
    loop_invoked l' = [(increment, ping); (increment, ping)] /\
    loop_dropped l' = [pong] /\
    loop_app l' = 2%nat.
Proof.
  destruct (shutdown_drains_queue [ping; pong; ping] [] running_loop bound_kernel
              eq_refl eq_refl)
    as (l' & k' & _ & Hrl & Hs & _ & Hi & _ & Hd & _ & Ha).
  exists l', k'. repeat split; [exact Hrl | exact Hs | exact Hi | exact Hd | exact Ha].
Defined.

End DispatchFacts.
